(** * vscode-telnet-pty: the Telnet pseudoterminal of [src/index.ts]

    A shallow embedding of the class [TelnetPseudoterminal] and of the
    negotiation policy it implements, followed by the properties of that
    policy.

    Conventions of the embedding.
    - JavaScript numbers that carry option codes, byte values, columns and
      rows are integers ([Z]); a [Buffer] is a list of byte values.
    - A method of the class is a computation in the monad [M]: it reads and
      updates the fields of the object, records the calls it makes on the
      [TelnetSocket], and either returns or throws.  A throw keeps the field
      updates and the socket calls made before it, as in JavaScript. *)

From Stdlib Require Import ZArith List String Ascii Bool Lia.
Import ListNotations.

Local Open Scope Z_scope.

(** ** Constants of the source *)

Definition ECHO : Z := 1.
Definition SUPPRESS_GO_AHEAD : Z := 3.
Definition TERMINAL_TYPE : Z := 24.
Definition NAWS : Z := 31.
Definition NEW_ENVIRON : Z := 39.

Definition IS : Z := 0.
Definition SEND : Z := 1.

(** ** Node.js buffers *)

Module Buffer.

Definition t := list Z.

(** [Buffer.alloc(size)]: a zero-filled buffer. *)
Definition alloc (size : nat) : t := repeat 0 size.

(** Storing a number in a [Uint8Array] slot keeps its low eight bits. *)
Definition ToUint8 (v : Z) : Z := v mod 256.

(** The operand conversion of [>>>]. *)
Definition ToUint32 (v : Z) : Z := v mod 2 ^ 32.

(** [v >>> n] *)
Definition ushr (v : Z) (n : Z) : Z := Z.shiftr (ToUint32 v) n.

(** [buf[i] = v] for an index inside the buffer; outside it the
    assignment to a typed array is ignored. *)
Fixpoint store (buf : t) (i : nat) (v : Z) : t :=
  match buf, i with
  | [], _ => []
  | _ :: rest, O => ToUint8 v :: rest
  | b :: rest, S j => b :: store rest j v
  end.

(** [buf[0]]: [None] stands for [undefined]. *)
Definition first (buf : t) : option Z :=
  match buf with
  | [] => None
  | b :: _ => Some b
  end.

(** [Buffer.from(str)] for a string of ASCII characters. *)
Definition from_string (s : string) : t :=
  map (fun c => Z.of_nat (nat_of_ascii c)) (list_ascii_of_string s).

Definition INT16_MIN : Z := -32768.
Definition INT16_MAX : Z := 32767.

Definition fitsInt16 (v : Z) : bool :=
  (INT16_MIN <=? v) && (v <=? INT16_MAX).

Inductive WriteResult :=
| Written (buf : t)
| OutOfRange (received : Z).

(** [buf.writeInt16BE(value, offset)]: the value is checked against the
    signed 16-bit range, then the offset against the length of the buffer
    (either failure is a [RangeError]), then the two bytes are stored, the
    high one first. *)
Definition writeInt16BE (buf : t) (value : Z) (offset : nat) : WriteResult :=
  if negb (fitsInt16 value) then OutOfRange value
  else if negb (Nat.leb (offset + 2) (List.length buf)) then
    OutOfRange (Z.of_nat offset)
  else
    let buf := store buf offset (ushr value 8) in
    let buf := store buf (S offset) value in
    Written buf.

End Buffer.

(** ** The host's terminal dimensions *)

Record TerminalDimensions := {
  columns : Z;
  rows : Z
}.

(** ** The socket and what is written to it *)

(** The connection held in [_socket]: [new TelnetSocket(net.createConnection(port, host))]. *)
Record TelnetSocket := {
  remoteHost : string;
  remotePort : Z
}.

(** A call made on the [TelnetSocket]. *)
Inductive SocketCall :=
| WriteDo (option : Z)
| WriteDont (option : Z)
| WriteWill (option : Z)
| WriteWont (option : Z)
| WriteSub (option : Z) (buffer : Buffer.t)
| WriteData (data : string)
| End_.

Inductive Exception :=
| Error (message : string)
| RangeError (received : Z).

(** ** The object *)

Record TelnetPseudoterminal := {
  host : string;
  port : Z;
  encoding : string;
  _dimensions : option TerminalDimensions;
  _socket : option TelnetSocket;
  _serverNawsOk : bool
}.

Definition with_dimensions (d : option TerminalDimensions) (t : TelnetPseudoterminal) :=
  {| host := host t; port := port t; encoding := encoding t;
     _dimensions := d; _socket := _socket t; _serverNawsOk := _serverNawsOk t |}.

Definition with_socket (k : option TelnetSocket) (t : TelnetPseudoterminal) :=
  {| host := host t; port := port t; encoding := encoding t;
     _dimensions := _dimensions t; _socket := k; _serverNawsOk := _serverNawsOk t |}.

Definition with_serverNawsOk (b : bool) (t : TelnetPseudoterminal) :=
  {| host := host t; port := port t; encoding := encoding t;
     _dimensions := _dimensions t; _socket := _socket t; _serverNawsOk := b |}.

(** ** Methods as computations *)

Inductive Completion (A : Type) :=
| Returns (a : A)
| Throws (e : Exception).
Arguments Returns {A} a.
Arguments Throws {A} e.

Record Outcome (A : Type) := {
  completion : Completion A;
  after : TelnetPseudoterminal;
  sent : list SocketCall
}.
Arguments completion {A} _.
Arguments after {A} _.
Arguments sent {A} _.

Definition M (A : Type) := TelnetPseudoterminal -> Outcome A.

Definition ret {A} (a : A) : M A :=
  fun t => {| completion := Returns a; after := t; sent := [] |}.

Definition throw {A} (e : Exception) : M A :=
  fun t => {| completion := Throws e; after := t; sent := [] |}.

Definition bind {A B} (m : M A) (k : A -> M B) : M B :=
  fun t =>
    let r := m t in
    match completion r with
    | Throws e => {| completion := Throws e; after := after r; sent := sent r |}
    | Returns a =>
        let r' := k a (after r) in
        {| completion := completion r'; after := after r';
           sent := sent r ++ sent r' |}
    end.

Definition gets {A} (f : TelnetPseudoterminal -> A) : M A :=
  fun t => {| completion := Returns (f t); after := t; sent := [] |}.

Definition modify (f : TelnetPseudoterminal -> TelnetPseudoterminal) : M unit :=
  fun t => {| completion := Returns tt; after := f t; sent := [] |}.

Definition call (c : SocketCall) : M unit :=
  fun t => {| completion := Returns tt; after := t; sent := [c] |}.

Declare Scope telnet_scope.
Delimit Scope telnet_scope with telnet.
Notation "x <- m ;; k" := (bind m (fun x => k))
  (at level 61, m at next level, right associativity) : telnet_scope.
Notation "m ;; k" := (bind m (fun _ => k))
  (at level 61, right associativity) : telnet_scope.
Local Open Scope telnet_scope.

(** The getter [socket]. *)
Definition socket : M TelnetSocket :=
  k <- gets _socket ;;
  match k with
  | None => throw (Error "Terminal not ready"%string)
  | Some k => ret k
  end.

(** The getters [dimensions] and [serverNawsOk]. *)
Definition dimensions : M (option TerminalDimensions) := gets _dimensions.
Definition serverNawsOk : M bool := gets _serverNawsOk.

(** [this.socket.method(...)]: the getter runs first. *)
Definition on_socket (c : SocketCall) : M unit :=
  _ <- socket ;; call c.

Definition writeInt16BE (buf : Buffer.t) (value : Z) (offset : nat) : M Buffer.t :=
  match Buffer.writeInt16BE buf value offset with
  | Buffer.Written buf' => ret buf'
  | Buffer.OutOfRange v => throw (RangeError v)
  end.

Definition sendWindowSize : M unit :=
  ok <- serverNawsOk ;;
  d <- dimensions ;;
  match ok, d with
  | true, Some d =>
      let buffer := Buffer.alloc 4 in
      buffer <- writeInt16BE buffer (columns d) 0 ;;
      buffer <- writeInt16BE buffer (rows d) 2 ;;
      on_socket (WriteSub NAWS buffer)
  | _, _ => ret tt
  end.

(** The setter [dimensions]. *)
Definition set_dimensions (value : option TerminalDimensions) : M unit :=
  modify (with_dimensions value) ;;
  sendWindowSize.

(** The setter [serverNawsOk]. *)
Definition set_serverNawsOk (value : bool) : M unit :=
  current <- serverNawsOk ;;
  if Bool.eqb value current then ret tt
  else
    modify (with_serverNawsOk value) ;;
    if value then
      on_socket (WriteWill NAWS) ;;
      sendWindowSize
    else
      on_socket (WriteWont NAWS).

(** The constructor, with the defaults [port = 23] and [encoding = 'utf8']
    already applied by the caller. *)
Definition new_TelnetPseudoterminal (h : string) (p : Z) (enc : string) : TelnetPseudoterminal :=
  {| host := h; port := p; encoding := enc;
     _dimensions := None; _socket := None; _serverNawsOk := false |}.

Definition open (initialDimensions : option TerminalDimensions) : M unit :=
  modify (with_dimensions initialDimensions) ;;
  p <- gets port ;;
  h <- gets host ;;
  modify (with_socket (Some {| remoteHost := h; remotePort := p |})) ;;
  on_socket (WriteDo ECHO) ;;
  on_socket (WriteDo SUPPRESS_GO_AHEAD) ;;
  on_socket (WriteWill SUPPRESS_GO_AHEAD) ;;
  on_socket (WriteWill NAWS).

Definition close : M unit := on_socket End_.

Definition translateInput (data : string) : string :=
  if String.eqb data (String "013"%char EmptyString)
  then String "013"%char (String "010"%char EmptyString)
  else data.

Definition handleInput (data : string) : M unit :=
  on_socket (WriteData (translateInput data)).

Definition setDimensions (d : TerminalDimensions) : M unit :=
  set_dimensions (Some d).

Definition handleDo (option : Z) : M unit :=
  if option =? NAWS then set_serverNawsOk true
  else if (option =? TERMINAL_TYPE) || (option =? NEW_ENVIRON) then
    on_socket (WriteWill option)
  else on_socket (WriteWont option).

Definition handleDont (option : Z) : M unit :=
  if option =? NAWS then set_serverNawsOk false
  else on_socket (WriteWont option).

Definition handleWill (option : Z) : M unit :=
  if (option =? ECHO) || (option =? SUPPRESS_GO_AHEAD) then
    on_socket (WriteDo option)
  else on_socket (WriteDont option).

Definition handleWont (option : Z) : M unit :=
  if option =? ECHO then on_socket (WriteDo option)
  else on_socket (WriteDont option).

(** [writeSub(option, ...data)]: the pieces are concatenated into one buffer. *)
Inductive SubData :=
| Num (d : Z)
| Str (d : string)
| Buf (d : Buffer.t).

Definition writeSub (option : Z) (data : list SubData) : M unit :=
  let buffer :=
    List.concat (map (fun d =>
                   match d with
                   | Num n => [Buffer.ToUint8 n]
                   | Str s => Buffer.from_string s
                   | Buf b => b
                   end) data) in
  on_socket (WriteSub option buffer).

Definition sendEnvironment : M unit :=
  writeSub NEW_ENVIRON [Num IS].

Definition sendTerminalType : M unit :=
  writeSub TERMINAL_TYPE [Num IS; Str "XTERM"%string].

(** [buffer[0] === SEND] *)
Definition first_is_SEND (buffer : Buffer.t) : bool :=
  match Buffer.first buffer with
  | Some b => b =? SEND
  | None => false
  end.

Definition handleSubnegotiation (option : Z) (buffer : Buffer.t) : M unit :=
  if option =? TERMINAL_TYPE then
    if first_is_SEND buffer then sendTerminalType else ret tt
  else if option =? NEW_ENVIRON then
    if first_is_SEND buffer then sendEnvironment else ret tt
  else ret tt.

(** The listeners registered by [open]. *)
Inductive SocketEvent :=
| on_do (option : Z)
| on_dont (option : Z)
| on_will (option : Z)
| on_wont (option : Z)
| on_sub (option : Z) (buffer : Buffer.t).

Definition receive (ev : SocketEvent) : M unit :=
  match ev with
  | on_do o => handleDo o
  | on_dont o => handleDont o
  | on_will o => handleWill o
  | on_wont o => handleWont o
  | on_sub o b => handleSubnegotiation o b
  end.

(** ** Bytes on the wire *)

(** Modelled from the spec: the writer of the [TelnetSocket] class of the
    [telnet-stream] package, which the sources import but do not contain.
    The command bytes are the wire format constants of the specification; a
    negotiation command is [IAC <command> <option>], a subnegotiation is
    [IAC SB <option> ... IAC SE], and every [IAC] byte inside data or inside
    a subnegotiation payload is doubled. *)
Module Wire.

Definition IAC : Z := 255.
Definition DO : Z := 253.
Definition DONT : Z := 254.
Definition WILL : Z := 251.
Definition WONT : Z := 252.
Definition SB : Z := 250.
Definition SE : Z := 240.

Fixpoint escape (bytes : list Z) : list Z :=
  match bytes with
  | [] => []
  | b :: rest =>
      if b =? IAC then IAC :: IAC :: escape rest else b :: escape rest
  end.

Definition encode (c : SocketCall) : list Z :=
  match c with
  | WriteDo o => [IAC; DO; o]
  | WriteDont o => [IAC; DONT; o]
  | WriteWill o => [IAC; WILL; o]
  | WriteWont o => [IAC; WONT; o]
  | WriteSub o payload => [IAC; SB; o] ++ escape payload ++ [IAC; SE]
  | WriteData data => escape (Buffer.from_string data)
  | End_ => []
  end.

Definition bytes (cs : list SocketCall) : list Z := flat_map encode cs.

End Wire.

(** ** Vocabulary of the properties *)

(** The negotiation commands among the calls made on the socket. *)
Definition is_reply (c : SocketCall) : bool :=
  match c with
  | WriteDo _ | WriteDont _ | WriteWill _ | WriteWont _ => true
  | WriteSub _ _ | WriteData _ | End_ => false
  end.

Definition replies (cs : list SocketCall) : list SocketCall := filter is_reply cs.

(** A method that returns normally, leaves the object in [t'] and makes the
    calls [cs]. *)
Definition returned (t' : TelnetPseudoterminal) (cs : list SocketCall) : Outcome unit :=
  {| completion := Returns tt; after := t'; sent := cs |}.

(** A method that throws [e], leaves the object in [t'] and has made the
    calls [cs] before. *)
Definition thrown (e : Exception) (t' : TelnetPseudoterminal) (cs : list SocketCall) : Outcome unit :=
  {| completion := Throws e; after := t'; sent := cs |}.

(** The four payload bytes of a NAWS subnegotiation. *)
Definition naws_payload (d : TerminalDimensions) : Buffer.t :=
  [Buffer.ToUint8 (Buffer.ushr (columns d) 8); Buffer.ToUint8 (columns d);
   Buffer.ToUint8 (Buffer.ushr (rows d) 8); Buffer.ToUint8 (rows d)].

Definition fits (d : TerminalDimensions) : bool :=
  Buffer.fitsInt16 (columns d) && Buffer.fitsInt16 (rows d).

(** The value named by the [RangeError] of an out-of-range size. *)
Definition offending (d : TerminalDimensions) : Z :=
  if Buffer.fitsInt16 (columns d) then rows d else columns d.

(** The options answered affirmatively. *)
Definition do_allowed (o : Z) : Prop :=
  o = NAWS \/ o = TERMINAL_TYPE \/ o = NEW_ENVIRON.

Definition will_allowed (o : Z) : Prop :=
  o = ECHO \/ o = SUPPRESS_GO_AHEAD.

(** The input strings carriage return, and carriage return, line feed. *)
Definition CR : string := String "013"%char EmptyString.
Definition CRLF : string := String "013"%char (String "010"%char EmptyString).

(** A terminal that has just been constructed, and the same after [open]. *)
Definition fresh : TelnetPseudoterminal :=
  new_TelnetPseudoterminal "localhost"%string 23 "utf8"%string.

Definition opened (initialDimensions : option TerminalDimensions) : TelnetPseudoterminal :=
  after (open initialDimensions fresh).

(** Reporting a sequence of sizes, one [setDimensions] after the other. *)
Definition report (ds : list TerminalDimensions) (t : TelnetPseudoterminal) : TelnetPseudoterminal :=
  fold_left (fun t d => after (setDimensions d t)) ds t.

(** ** The constructor and its overloads *)

(** [TelnetPseudoterminalOptions]: [port] and [encoding] may be left out. *)
Module TelnetPseudoterminalOptions.

Record t := {
  host : string;
  port : option Z;
  encoding : option string
}.

End TelnetPseudoterminalOptions.



(** ** Sequences of events *)

(** The option an event is about, and the option a call on the socket
    names. *)
Definition event_option (ev : SocketEvent) : Z :=
  match ev with
  | on_do o | on_dont o | on_will o | on_wont o | on_sub o _ => o
  end.

Definition call_option (c : SocketCall) : option Z :=
  match c with
  | WriteDo o | WriteDont o | WriteWill o | WriteWont o | WriteSub o _ => Some o
  | WriteData _ | End_ => None
  end.

(** The listeners run on the events in the order of their arrival; a
    listener that throws ends the run. *)
Fixpoint receive_all (evs : list SocketEvent) (t : TelnetPseudoterminal)
  : TelnetPseudoterminal * list SocketCall :=
  match evs with
  | [] => (t, [])
  | ev :: rest =>
      let r := receive ev t in
      match completion r with
      | Throws _ => (after r, sent r)
      | Returns _ =>
          let (t', cs) := receive_all rest (after r) in
          (t', sent r ++ cs)
      end
  end.

(** The answers about NAWS among the calls: [true] for [WILL NAWS], [false]
    for [WONT NAWS]. *)
Fixpoint naws_answers (cs : list SocketCall) : list bool :=
  match cs with
  | [] => []
  | WriteWill o :: rest =>
      if o =? NAWS then true :: naws_answers rest else naws_answers rest
  | WriteWont o :: rest =>
      if o =? NAWS then false :: naws_answers rest else naws_answers rest
  | _ :: rest => naws_answers rest
  end.

(** A list of answers in which each one differs from the one before, the
    first from [before]. *)
Fixpoint alternating (before : bool) (answers : list bool) : bool :=
  match answers with
  | [] => true
  | a :: rest => negb (Bool.eqb a before) && alternating a rest
  end.

(** The NAWS flag that an event asks for: [DO NAWS] sets it, [DONT NAWS]
    clears it, every other event leaves it as it is. *)
Definition naws_flag_after (ev : SocketEvent) (flag : bool) : bool :=
  match ev with
  | on_do o => if o =? NAWS then true else flag
  | on_dont o => if o =? NAWS then false else flag
  | _ => flag
  end.

(** The stored size can be encoded: there is none, or it is within range. *)
Definition size_encodable (t : TelnetPseudoterminal) : Prop :=
  forall d, _dimensions t = Some d -> fits d = true.

(** ** Basic facts *)

Lemma outcome_eta {A} (r : Outcome A) :
  {| completion := completion r; after := after r; sent := sent r |} = r.
Proof. destruct r; reflexivity. Qed.

Lemma bind_gets {A B} (f : TelnetPseudoterminal -> A) (k : A -> M B) t :
  bind (gets f) k t = k (f t) t.
Proof. unfold bind, gets; simpl. apply outcome_eta. Qed.

Lemma bind_modify {B} f (k : unit -> M B) t :
  bind (modify f) k t = k tt (f t).
Proof. unfold bind, modify; simpl. apply outcome_eta. Qed.

Lemma bind_returned {B} (m : M unit) (k : unit -> M B) t t' cs :
  m t = returned t' cs ->
  bind m k t =
  {| completion := completion (k tt t'); after := after (k tt t');
     sent := cs ++ sent (k tt t') |}.
Proof. intros E. unfold bind. rewrite E. reflexivity. Qed.

Lemma bind_thrown {B} (m : M unit) (k : unit -> M B) t t' e cs :
  m t = thrown e t' cs ->
  bind m k t = {| completion := Throws e; after := t'; sent := cs |}.
Proof. intros E. unfold bind. rewrite E. reflexivity. Qed.

Lemma with_dimensions_same t :
  with_dimensions (_dimensions t) t = t.
Proof. destruct t; reflexivity. Qed.

Lemma on_socket_open t c :
  _socket t <> None -> on_socket c t = returned t [c].
Proof.
  intros Hs. unfold on_socket, socket, bind, gets. simpl.
  destruct (_socket t); [reflexivity | congruence].
Qed.

Lemma on_socket_closed t c :
  _socket t = None ->
  on_socket c t = thrown (Error "Terminal not ready"%string) t [].
Proof.
  intros Hs. unfold on_socket, socket, bind, gets. simpl.
  rewrite Hs. reflexivity.
Qed.

Lemma sendWindowSize_not_accepted t :
  _serverNawsOk t = false -> sendWindowSize t = returned t [].
Proof.
  intros Hn. unfold sendWindowSize, serverNawsOk, dimensions, bind, gets. simpl.
  rewrite Hn. reflexivity.
Qed.

Lemma sendWindowSize_no_size t :
  _dimensions t = None -> sendWindowSize t = returned t [].
Proof.
  intros Hd. unfold sendWindowSize, serverNawsOk, dimensions, bind, gets. simpl.
  rewrite Hd. destruct (_serverNawsOk t); reflexivity.
Qed.

Lemma sendWindowSize_fits t d :
  _serverNawsOk t = true -> _dimensions t = Some d -> fits d = true ->
  sendWindowSize t = on_socket (WriteSub NAWS (naws_payload d)) t.
Proof.
  intros Hn Hd Hf. apply andb_prop in Hf as [Hc Hr].
  unfold sendWindowSize, serverNawsOk, dimensions, bind at 1 2, gets.
  simpl. rewrite Hn, Hd.
  unfold bind, writeInt16BE, Buffer.writeInt16BE.
  rewrite Hc. simpl. rewrite Hr. simpl.
  destruct (on_socket _ t) as [c a s]. simpl. reflexivity.
Qed.

Lemma sendWindowSize_out_of_range t d :
  _serverNawsOk t = true -> _dimensions t = Some d -> fits d = false ->
  sendWindowSize t = thrown (RangeError (offending d)) t [].
Proof.
  intros Hn Hd Hf.
  unfold sendWindowSize, serverNawsOk, dimensions, bind at 1 2, gets.
  simpl. rewrite Hn, Hd.
  unfold fits in Hf. unfold offending, bind, writeInt16BE, Buffer.writeInt16BE.
  destruct (Buffer.fitsInt16 (columns d)); simpl in *.
  - rewrite Hf. reflexivity.
  - reflexivity.
Qed.

Lemma sendWindowSize_after t : after (sendWindowSize t) = t.
Proof.
  destruct (_serverNawsOk t) eqn:Hn.
  - destruct (_dimensions t) as [d|] eqn:Hd.
    + destruct (fits d) eqn:Hf.
      * rewrite (sendWindowSize_fits t d Hn Hd Hf).
        destruct (_socket t) eqn:Hs.
        -- rewrite on_socket_open by congruence. reflexivity.
        -- rewrite on_socket_closed by assumption. reflexivity.
      * rewrite (sendWindowSize_out_of_range t d Hn Hd Hf). reflexivity.
    + rewrite sendWindowSize_no_size by assumption. reflexivity.
  - rewrite sendWindowSize_not_accepted by assumption. reflexivity.
Qed.

(** What [sendWindowSize] writes is nothing or one NAWS block carrying the
    stored size. *)
Lemma sendWindowSize_sent t :
  sent (sendWindowSize t) = [] \/
  exists d, _dimensions t = Some d /\ fits d = true /\
            sent (sendWindowSize t) = [WriteSub NAWS (naws_payload d)].
Proof.
  destruct (_serverNawsOk t) eqn:Hn.
  - destruct (_dimensions t) as [d|] eqn:Hd.
    + destruct (fits d) eqn:Hf.
      * rewrite (sendWindowSize_fits t d Hn Hd Hf).
        destruct (_socket t) eqn:Hs.
        -- right. exists d. rewrite on_socket_open by congruence. auto.
        -- left. rewrite on_socket_closed by assumption. reflexivity.
      * left. rewrite (sendWindowSize_out_of_range t d Hn Hd Hf). reflexivity.
    + left. rewrite sendWindowSize_no_size by assumption. reflexivity.
  - left. rewrite sendWindowSize_not_accepted by assumption. reflexivity.
Qed.

Lemma set_serverNawsOk_same t b :
  _serverNawsOk t = b -> set_serverNawsOk b t = returned t [].
Proof.
  intros Hb. unfold set_serverNawsOk, serverNawsOk.
  rewrite bind_gets, Hb, Bool.eqb_reflx. reflexivity.
Qed.

Lemma set_serverNawsOk_accept t :
  _socket t <> None -> _serverNawsOk t = false ->
  set_serverNawsOk true t =
  {| completion := completion (sendWindowSize (with_serverNawsOk true t));
     after := with_serverNawsOk true t;
     sent := WriteWill NAWS :: sent (sendWindowSize (with_serverNawsOk true t)) |}.
Proof.
  intros Hs Hn. unfold set_serverNawsOk, serverNawsOk.
  rewrite bind_gets, Hn. cbv [Bool.eqb]. rewrite bind_modify.
  rewrite (bind_returned _ _ _ _ _
             (on_socket_open (with_serverNawsOk true t) (WriteWill NAWS) Hs)).
  rewrite sendWindowSize_after. reflexivity.
Qed.

Lemma set_serverNawsOk_accept_closed t :
  _socket t = None -> _serverNawsOk t = false ->
  set_serverNawsOk true t =
  thrown (Error "Terminal not ready"%string) (with_serverNawsOk true t) [].
Proof.
  intros Hs Hn. unfold set_serverNawsOk, serverNawsOk.
  rewrite bind_gets, Hn. cbv [Bool.eqb]. rewrite bind_modify.
  rewrite (bind_thrown _ _ _ _ _ _
             (on_socket_closed (with_serverNawsOk true t) (WriteWill NAWS) Hs)).
  reflexivity.
Qed.

Lemma set_serverNawsOk_withdraw t :
  _socket t <> None -> _serverNawsOk t = true ->
  set_serverNawsOk false t = returned (with_serverNawsOk false t) [WriteWont NAWS].
Proof.
  intros Hs Hn. unfold set_serverNawsOk, serverNawsOk.
  rewrite bind_gets, Hn. cbv [Bool.eqb]. rewrite bind_modify.
  apply on_socket_open. exact Hs.
Qed.

Lemma set_serverNawsOk_withdraw_closed t :
  _socket t = None -> _serverNawsOk t = true ->
  set_serverNawsOk false t =
  thrown (Error "Terminal not ready"%string) (with_serverNawsOk false t) [].
Proof.
  intros Hs Hn. unfold set_serverNawsOk, serverNawsOk.
  rewrite bind_gets, Hn. cbv [Bool.eqb]. rewrite bind_modify.
  apply on_socket_closed. exact Hs.
Qed.

Lemma handleDo_NAWS t : handleDo NAWS t = set_serverNawsOk true t.
Proof. reflexivity. Qed.

Lemma handleDont_NAWS t : handleDont NAWS t = set_serverNawsOk false t.
Proof. reflexivity. Qed.

Lemma handleDo_other t o :
  o <> NAWS ->
  handleDo o t =
  on_socket (if (o =? TERMINAL_TYPE) || (o =? NEW_ENVIRON) then WriteWill o else WriteWont o) t.
Proof.
  intros Ho. unfold handleDo.
  destruct (Z.eqb_spec o NAWS); [contradiction|].
  destruct ((o =? TERMINAL_TYPE) || (o =? NEW_ENVIRON)); reflexivity.
Qed.

Lemma handleDont_other t o :
  o <> NAWS -> handleDont o t = on_socket (WriteWont o) t.
Proof.
  intros Ho. unfold handleDont.
  destruct (Z.eqb_spec o NAWS); [contradiction | reflexivity].
Qed.

Lemma handleWill_eq t o :
  handleWill o t =
  on_socket (if (o =? ECHO) || (o =? SUPPRESS_GO_AHEAD) then WriteDo o else WriteDont o) t.
Proof.
  unfold handleWill.
  destruct ((o =? ECHO) || (o =? SUPPRESS_GO_AHEAD)); reflexivity.
Qed.

Lemma handleWont_eq t o :
  handleWont o t = on_socket (if o =? ECHO then WriteDo o else WriteDont o) t.
Proof.
  unfold handleWont. destruct (o =? ECHO); reflexivity.
Qed.

(** The two bytes written are the low sixteen bits of the value (its two's
    complement representation when it is negative), the high byte first. *)
Lemma writeInt16BE_big_endian v :
  256 * Buffer.ToUint8 (Buffer.ushr v 8) + Buffer.ToUint8 v = v mod 2 ^ 16.
Proof.
  unfold Buffer.ToUint8, Buffer.ushr, Buffer.ToUint32.
  rewrite Z.shiftr_div_pow2 by lia.
  change (2 ^ 8) with 256. change (2 ^ 16) with 65536.
  change (2 ^ 32) with 4294967296.
  pose proof (Z.div_mod v 4294967296 ltac:(lia)) as E.
  pose proof (Z.mod_pos_bound v 4294967296 ltac:(lia)) as B.
  set (r := v mod 4294967296) in *. set (q := v / 4294967296) in *.
  pose proof (Z.div_mod r 256 ltac:(lia)) as E1.
  pose proof (Z.mod_pos_bound r 256 ltac:(lia)) as B1.
  set (a := r / 256) in *. set (b := r mod 256) in *.
  pose proof (Z.div_mod a 256 ltac:(lia)) as E2.
  pose proof (Z.mod_pos_bound a 256 ltac:(lia)) as B2.
  set (c := a / 256) in *. set (e := a mod 256) in *.
  assert (Hlow : v mod 256 = b).
  { symmetry. apply Z.mod_unique_pos with (q := 16777216 * q + a); lia. }
  rewrite Hlow.
  apply Z.mod_unique_pos with (q := 65536 * q + c); lia.
Qed.

(** For a size that a terminal can have, the bytes are the quotient and the
    remainder by 256. *)
Lemma writeInt16BE_nonneg v :
  0 <= v <= Buffer.INT16_MAX ->
  Buffer.ToUint8 (Buffer.ushr v 8) = v / 256 /\ Buffer.ToUint8 v = v mod 256.
Proof.
  unfold Buffer.INT16_MAX. intros Hv.
  unfold Buffer.ToUint8, Buffer.ushr, Buffer.ToUint32.
  rewrite Z.shiftr_div_pow2 by lia.
  change (2 ^ 8) with 256. change (2 ^ 32) with 4294967296.
  rewrite (Z.mod_small v 4294967296) by lia.
  split; [|reflexivity].
  apply Z.mod_small. split.
  - apply Z.div_pos; lia.
  - apply Z.div_lt_upper_bound; lia.
Qed.

Lemma sendWindowSize_no_reply t : replies (sent (sendWindowSize t)) = [].
Proof.
  destruct (sendWindowSize_sent t) as [E | (d & _ & _ & E)];
    rewrite E; reflexivity.
Qed.

Lemma sent_handleDo_NAWS t :
  _socket t <> None ->
  sent (handleDo NAWS t) =
  if _serverNawsOk t then []
  else WriteWill NAWS :: sent (sendWindowSize (with_serverNawsOk true t)).
Proof.
  intros Hs. rewrite handleDo_NAWS.
  destruct (_serverNawsOk t) eqn:Hn.
  - rewrite set_serverNawsOk_same by assumption. reflexivity.
  - rewrite set_serverNawsOk_accept by assumption. reflexivity.
Qed.

Lemma sent_handleDont_NAWS t :
  _socket t <> None ->
  sent (handleDont NAWS t) =
  if _serverNawsOk t then [WriteWont NAWS] else [].
Proof.
  intros Hs. rewrite handleDont_NAWS.
  destruct (_serverNawsOk t) eqn:Hn.
  - rewrite set_serverNawsOk_withdraw by assumption. reflexivity.
  - rewrite set_serverNawsOk_same by assumption. reflexivity.
Qed.

(** ** Replies to negotiation commands *)

(** C1, as the specification states it, fails: right after [open] the remote
    has not accepted NAWS, and [DONT NAWS] is then answered by no command at
    all; likewise the second of two [DO NAWS] in a row is answered by no
    command.  The guard at the head of the setter [serverNawsOk] returns
    before anything is written. *)
Lemma repeated_naws_request_unanswered :
  List.length (replies (sent (handleDont NAWS (opened None)))) = 0%nat /\
  List.length (replies (sent (handleDo NAWS (after (handleDo NAWS (opened None)))))) = 0%nat.
Proof. split; reflexivity. Qed.

(** C1 (amended): on an open connection every [WILL] and [WONT], and every
    [DO] and [DONT] for an option other than NAWS, is answered by exactly one
    negotiation command.  [DO NAWS] is answered by [WILL NAWS] exactly when
    the remote had not accepted NAWS before, and [DONT NAWS] by [WONT NAWS]
    exactly when it had; a request for the state NAWS is already in is
    answered by no command. *)
Theorem negotiation_reply_count t o :
  _socket t <> None ->
  (o <> NAWS -> List.length (replies (sent (handleDo o t))) = 1%nat) /\
  (o <> NAWS -> List.length (replies (sent (handleDont o t))) = 1%nat) /\
  List.length (replies (sent (handleWill o t))) = 1%nat /\
  List.length (replies (sent (handleWont o t))) = 1%nat /\
  replies (sent (handleDo NAWS t)) =
    (if _serverNawsOk t then [] else [WriteWill NAWS]) /\
  replies (sent (handleDont NAWS t)) =
    (if _serverNawsOk t then [WriteWont NAWS] else []).
Proof.
  intros Hs. repeat split.
  - intros Ho. rewrite handleDo_other, on_socket_open by assumption.
    destruct ((o =? TERMINAL_TYPE) || (o =? NEW_ENVIRON)); reflexivity.
  - intros Ho. rewrite handleDont_other, on_socket_open by assumption.
    reflexivity.
  - rewrite handleWill_eq, on_socket_open by assumption.
    destruct ((o =? ECHO) || (o =? SUPPRESS_GO_AHEAD)); reflexivity.
  - rewrite handleWont_eq, on_socket_open by assumption.
    destruct (o =? ECHO); reflexivity.
  - rewrite sent_handleDo_NAWS by assumption.
    destruct (_serverNawsOk t); [reflexivity|].
    change (replies (WriteWill NAWS :: ?l)) with (WriteWill NAWS :: replies l).
    rewrite sendWindowSize_no_reply. reflexivity.
  - rewrite sent_handleDont_NAWS by assumption.
    destruct (_serverNawsOk t); reflexivity.
Qed.

Lemma negotiation_reply_count_witness :
  let t := after (handleDo NAWS (opened None)) in
  _socket t <> None /\
  List.length (replies (sent (handleDo ECHO t))) = 1%nat /\
  replies (sent (handleDo NAWS t)) = [] /\
  replies (sent (handleDont NAWS t)) = [WriteWont NAWS].
Proof.
  intros t.
  assert (Hs : _socket t <> None) by (vm_compute; discriminate).
  destruct (negotiation_reply_count t ECHO Hs) as (Hdo & _ & _ & _ & Hn & Hd).
  split; [exact Hs|]. split; [|split].
  - apply Hdo. vm_compute. discriminate.
  - exact Hn.
  - exact Hd.
Defined.

(** ** NAWS: acceptance and the size that follows *)

(** C2: when the remote has not accepted NAWS and the size 80 x 24 is
    stored, [DO NAWS] makes the terminal write [WILL NAWS] and then the NAWS
    subnegotiation with payload [00 50 00 18]; on the wire these are the
    bytes [IAC WILL NAWS IAC SB NAWS 00 50 00 18 IAC SE].  For every stored
    size within range the two calls come in that order, and whatever the
    stored size, a subnegotiation written by this step is preceded by
    [WILL NAWS]. *)
Theorem do_naws_sends_will_then_size t :
  _socket t <> None -> _serverNawsOk t = false ->
  (_dimensions t = Some {| columns := 80; rows := 24 |} ->
   handleDo NAWS t =
     returned (with_serverNawsOk true t)
              [WriteWill NAWS; WriteSub NAWS [0; 80; 0; 24]] /\
   Wire.bytes (sent (handleDo NAWS t)) =
     [255; 251; 31; 255; 250; 31; 0; 80; 0; 24; 255; 240]) /\
  (forall d, _dimensions t = Some d -> fits d = true ->
   handleDo NAWS t =
     returned (with_serverNawsOk true t)
              [WriteWill NAWS; WriteSub NAWS (naws_payload d)]) /\
  (forall pre o b post,
   sent (handleDo NAWS t) = pre ++ WriteSub o b :: post ->
   In (WriteWill NAWS) pre).
Proof.
  intros Hs Hn.
  assert (Hgen : forall d, _dimensions t = Some d -> fits d = true ->
            handleDo NAWS t =
            returned (with_serverNawsOk true t)
                     [WriteWill NAWS; WriteSub NAWS (naws_payload d)]).
  { intros d Hd Hf. rewrite handleDo_NAWS, set_serverNawsOk_accept by assumption.
    rewrite (sendWindowSize_fits (with_serverNawsOk true t) d eq_refl Hd Hf).
    rewrite (on_socket_open (with_serverNawsOk true t) _ Hs). reflexivity. }
  split; [|split].
  - intros Hd. rewrite (Hgen _ Hd eq_refl). split; reflexivity.
  - exact Hgen.
  - intros pre o b post E.
    rewrite sent_handleDo_NAWS, Hn in E by assumption.
    destruct pre as [|c pre]; simpl in E.
    + discriminate E.
    + injection E as Ec _. subst c. left. reflexivity.
Qed.

Lemma do_naws_sends_will_then_size_witness :
  let t := opened (Some {| columns := 80; rows := 24 |}) in
  (_socket t <> None /\ _serverNawsOk t = false /\
   _dimensions t = Some {| columns := 80; rows := 24 |}) /\
  Wire.bytes (sent (handleDo NAWS t)) =
    [255; 251; 31; 255; 250; 31; 0; 80; 0; 24; 255; 240].
Proof.
  intros t.
  assert (Hs : _socket t <> None) by (vm_compute; discriminate).
  assert (Hn : _serverNawsOk t = false) by reflexivity.
  assert (Hd : _dimensions t = Some {| columns := 80; rows := 24 |}) by reflexivity.
  split; [auto|].
  exact (proj2 (proj1 (do_naws_sends_will_then_size t Hs Hn) Hd)).
Defined.

(** ** Options outside the allow-lists *)

Lemma orb_eqb_allowed o a b :
  (o =? a) || (o =? b) = true -> o = a \/ o = b.
Proof.
  intros H. apply orb_prop in H as [H | H]; apply Z.eqb_eq in H; auto.
Qed.

Lemma orb_eqb_refused o a b :
  o <> a -> o <> b -> (o =? a) || (o =? b) = false.
Proof.
  intros Ha Hb. apply Z.eqb_neq in Ha, Hb. rewrite Ha, Hb. reflexivity.
Qed.

Lemma sendWindowSize_only_sub t c :
  In c (sent (sendWindowSize t)) -> is_reply c = false.
Proof.
  destruct (sendWindowSize_sent t) as [E | (d & _ & _ & E)];
    rewrite E; simpl; intros Hin.
  - contradiction.
  - destruct Hin as [<- | []]. reflexivity.
Qed.

(** The affirmative commands written in reaction to an event name allowed
    options only. *)
Lemma affirmative_replies_allowed t ev :
  _socket t <> None ->
  (forall o, In (WriteWill o) (sent (receive ev t)) -> do_allowed o) /\
  (forall o, In (WriteDo o) (sent (receive ev t)) -> will_allowed o).
Proof.
  intros Hs. unfold do_allowed, will_allowed.
  destruct ev as [o' | o' | o' | o' | o' b]; simpl receive.
  - destruct (Z.eq_dec o' NAWS) as [-> | Ho].
    + rewrite sent_handleDo_NAWS by assumption.
      destruct (_serverNawsOk t).
      * split; intros o [].
      * split; intros o Hin; apply in_inv in Hin as [E | Hin];
          try discriminate E;
          try (apply sendWindowSize_only_sub in Hin; discriminate Hin).
        injection E as <-. auto.
    + rewrite handleDo_other, on_socket_open by assumption.
      destruct ((o' =? TERMINAL_TYPE) || (o' =? NEW_ENVIRON)) eqn:Ea;
        split; intros o [E | []]; try discriminate E.
      injection E as <-. apply orb_eqb_allowed in Ea. tauto.
  - destruct (Z.eq_dec o' NAWS) as [-> | Ho].
    + rewrite sent_handleDont_NAWS by assumption.
      destruct (_serverNawsOk t); split; intros o Hin;
        try contradiction; destruct Hin as [E | []]; discriminate E.
    + rewrite handleDont_other, on_socket_open by assumption.
      split; intros o [E | []]; discriminate E.
  - rewrite handleWill_eq, on_socket_open by assumption.
    destruct ((o' =? ECHO) || (o' =? SUPPRESS_GO_AHEAD)) eqn:Ea;
      split; intros o [E | []]; try discriminate E.
    injection E as <-. apply orb_eqb_allowed in Ea. exact Ea.
  - rewrite handleWont_eq, on_socket_open by assumption.
    destruct (Z.eqb_spec o' ECHO) as [-> | Ho];
      split; intros o [E | []]; try discriminate E.
    injection E as <-. auto.
  - unfold handleSubnegotiation, sendTerminalType, sendEnvironment, writeSub.
    destruct (o' =? TERMINAL_TYPE); [|destruct (o' =? NEW_ENVIRON)];
      try destruct (first_is_SEND b);
      try rewrite on_socket_open by assumption;
      split; intros o Hin; try contradiction;
      destruct Hin as [E | []]; discriminate E.
Qed.

(** C3: an option that is not NAWS, TERMINAL-TYPE or NEW-ENVIRON is refused
    with exactly one [WONT] when [DO] is received; an option that is not
    ECHO or SUPPRESS-GO-AHEAD is refused with exactly one [DONT] when [WILL]
    is received; neither changes the terminal.  Whatever the event, a [WILL]
    written in reply names an option of the first list and a [DO] written in
    reply names an option of the second. *)
Theorem options_off_the_allow_lists_refused t o :
  _socket t <> None ->
  (~ do_allowed o -> handleDo o t = returned t [WriteWont o]) /\
  (~ will_allowed o -> handleWill o t = returned t [WriteDont o]) /\
  (forall ev o', In (WriteWill o') (sent (receive ev t)) -> do_allowed o') /\
  (forall ev o', In (WriteDo o') (sent (receive ev t)) -> will_allowed o').
Proof.
  intros Hs. unfold do_allowed, will_allowed. repeat split.
  - intros Ho. rewrite handleDo_other by tauto.
    rewrite orb_eqb_refused by tauto. apply on_socket_open; assumption.
  - intros Ho. rewrite handleWill_eq.
    rewrite orb_eqb_refused by tauto. apply on_socket_open; assumption.
  - intros ev o'. apply (affirmative_replies_allowed t ev Hs).
  - intros ev o'. apply (affirmative_replies_allowed t ev Hs).
Qed.

Lemma options_off_the_allow_lists_refused_witness :
  _socket (opened None) <> None /\ ~ do_allowed ECHO /\ ~ will_allowed NAWS /\
  handleDo ECHO (opened None) = returned (opened None) [WriteWont ECHO] /\
  handleWill NAWS (opened None) = returned (opened None) [WriteDont NAWS].
Proof.
  assert (Hs : _socket (opened None) <> None) by (vm_compute; discriminate).
  assert (Hd : ~ do_allowed ECHO)
    by (unfold do_allowed; vm_compute; intuition discriminate).
  assert (Hw : ~ will_allowed NAWS)
    by (unfold will_allowed; vm_compute; intuition discriminate).
  split; [exact Hs|]. split; [exact Hd|]. split; [exact Hw|]. split.
  - exact (proj1 (options_off_the_allow_lists_refused (opened None) ECHO Hs) Hd).
  - exact (proj1 (proj2 (options_off_the_allow_lists_refused (opened None) NAWS Hs)) Hw).
Defined.

(** ** WONT *)

(** C4, as the specification states it, fails: the terminal keeps no record
    of what the remote has enabled.  [WILL ECHO] and [WONT ECHO] both leave
    every field as it was, so the terminal after [WILL ECHO] and the terminal
    after a following [WONT ECHO] are the same, and nothing read from the
    terminal can be true once the remote has enabled ECHO and false once it
    has refused. *)
Lemma no_record_of_remote_echo :
  after (handleWont ECHO (after (handleWill ECHO (opened None)))) =
    after (handleWill ECHO (opened None)) /\
  ~ (exists theyWill : TelnetPseudoterminal -> Z -> bool,
       theyWill (after (handleWill ECHO (opened None))) ECHO = true /\
       theyWill (after (handleWont ECHO (after (handleWill ECHO (opened None))))) ECHO = false).
Proof.
  split; [reflexivity|].
  intros (theyWill & Hon & Hoff).
  change (after (handleWont ECHO (after (handleWill ECHO (opened None)))))
    with (after (handleWill ECHO (opened None))) in Hoff.
  rewrite Hon in Hoff. discriminate Hoff.
Qed.

(** C4 (amended): on an open connection [WONT ECHO] is answered with
    [DO ECHO], and [WONT] for any other option with [DONT] for that option;
    in both cases the terminal is left as it was (no flag is kept for what
    the remote has enabled). *)
Theorem wont_reply t o :
  _socket t <> None ->
  handleWont ECHO t = returned t [WriteDo ECHO] /\
  (o <> ECHO -> handleWont o t = returned t [WriteDont o]).
Proof.
  intros Hs. split.
  - rewrite handleWont_eq. apply on_socket_open; assumption.
  - intros Ho. rewrite handleWont_eq.
    destruct (Z.eqb_spec o ECHO); [contradiction|].
    apply on_socket_open; assumption.
Qed.

Lemma wont_reply_witness :
  _socket (opened None) <> None /\ NAWS <> ECHO /\
  handleWont ECHO (opened None) = returned (opened None) [WriteDo ECHO] /\
  handleWont NAWS (opened None) = returned (opened None) [WriteDont NAWS].
Proof.
  assert (Hs : _socket (opened None) <> None) by (vm_compute; discriminate).
  assert (Hn : NAWS <> ECHO) by (vm_compute; discriminate).
  split; [exact Hs|]. split; [exact Hn|]. split.
  - exact (proj1 (wont_reply (opened None) NAWS Hs)).
  - exact (proj2 (wont_reply (opened None) NAWS Hs) Hn).
Defined.

(** ** Subnegotiations *)

Lemma first_is_SEND_spec buffer :
  first_is_SEND buffer = true <-> Buffer.first buffer = Some SEND.
Proof.
  unfold first_is_SEND. destruct (Buffer.first buffer) as [b|].
  - rewrite Z.eqb_eq. split; congruence.
  - split; discriminate.
Qed.

(** C5: on an open connection, a TERMINAL-TYPE block whose first payload
    byte is SEND is answered with the block [IS "XTERM"], a NEW-ENVIRON
    block whose first payload byte is SEND with the block [IS]; a block for
    any other option, with an empty payload or with another first byte is
    answered by nothing, and the handler returns normally. *)
Theorem subnegotiation_replies t o buffer :
  _socket t <> None ->
  (o = TERMINAL_TYPE -> Buffer.first buffer = Some SEND ->
   handleSubnegotiation o buffer t =
     returned t [WriteSub TERMINAL_TYPE (IS :: Buffer.from_string "XTERM")] /\
   Wire.bytes (sent (handleSubnegotiation o buffer t)) =
     [255; 250; 24; 0; 88; 84; 69; 82; 77; 255; 240]) /\
  (o = NEW_ENVIRON -> Buffer.first buffer = Some SEND ->
   handleSubnegotiation o buffer t = returned t [WriteSub NEW_ENVIRON [IS]]) /\
  ((o <> TERMINAL_TYPE /\ o <> NEW_ENVIRON) \/ Buffer.first buffer <> Some SEND ->
   handleSubnegotiation o buffer t = returned t []).
Proof.
  intros Hs. split; [|split].
  - intros -> Hb. apply first_is_SEND_spec in Hb.
    assert (E : handleSubnegotiation TERMINAL_TYPE buffer t =
                returned t [WriteSub TERMINAL_TYPE (IS :: Buffer.from_string "XTERM")]).
    { unfold handleSubnegotiation. rewrite Hb. simpl.
      unfold sendTerminalType, writeSub. apply on_socket_open; assumption. }
    rewrite E. split; reflexivity.
  - intros -> Hb. apply first_is_SEND_spec in Hb.
    unfold handleSubnegotiation. rewrite Hb. simpl.
    unfold sendEnvironment, writeSub. apply on_socket_open; assumption.
  - intros H. unfold handleSubnegotiation.
    destruct (first_is_SEND buffer) eqn:Hb.
    + apply first_is_SEND_spec in Hb.
      destruct H as [[Ht He] | H]; [|contradiction].
      apply Z.eqb_neq in Ht, He. rewrite Ht, He. reflexivity.
    + destruct (o =? TERMINAL_TYPE); [|destruct (o =? NEW_ENVIRON)];
        reflexivity.
Qed.

Lemma subnegotiation_replies_witness :
  _socket (opened None) <> None /\
  Wire.bytes (sent (handleSubnegotiation TERMINAL_TYPE [SEND] (opened None))) =
    [255; 250; 24; 0; 88; 84; 69; 82; 77; 255; 240] /\
  handleSubnegotiation NEW_ENVIRON [SEND] (opened None) =
    returned (opened None) [WriteSub NEW_ENVIRON [IS]] /\
  handleSubnegotiation TERMINAL_TYPE [] (opened None) = returned (opened None) [].
Proof.
  assert (Hs : _socket (opened None) <> None) by (vm_compute; discriminate).
  split; [exact Hs|]. split; [|split].
  - exact (proj2 (proj1 (subnegotiation_replies (opened None) TERMINAL_TYPE [SEND] Hs)
                    eq_refl eq_refl)).
  - exact (proj1 (proj2 (subnegotiation_replies (opened None) NEW_ENVIRON [SEND] Hs))
                 eq_refl eq_refl).
  - apply (proj2 (proj2 (subnegotiation_replies (opened None) TERMINAL_TYPE [] Hs))).
    right. discriminate.
Defined.

(** ** Input *)

(** C6: on an open connection the input that is exactly a carriage return is
    written to the socket as carriage return, line feed; every other input,
    whether or not a carriage return occurs in it, is written as it is. *)
Theorem input_translation t data :
  _socket t <> None ->
  (data = CR -> handleInput data t = returned t [WriteData CRLF]) /\
  (data <> CR -> handleInput data t = returned t [WriteData data]).
Proof.
  intros Hs. unfold handleInput, translateInput. fold CR. fold CRLF. split.
  - intros ->. rewrite String.eqb_refl. apply on_socket_open; assumption.
  - intros Hd. apply String.eqb_neq in Hd. rewrite Hd.
    apply on_socket_open; assumption.
Qed.

Lemma input_translation_witness :
  let line := String "a"%char (String "013"%char (String "b"%char EmptyString)) in
  _socket (opened None) <> None /\ line <> CR /\
  handleInput CR (opened None) = returned (opened None) [WriteData CRLF] /\
  handleInput line (opened None) = returned (opened None) [WriteData line].
Proof.
  intros line.
  assert (Hs : _socket (opened None) <> None) by (vm_compute; discriminate).
  assert (Hl : line <> CR) by (vm_compute; discriminate).
  split; [exact Hs|]. split; [exact Hl|]. split.
  - exact (proj1 (input_translation (opened None) CR Hs) eq_refl).
  - exact (proj2 (input_translation (opened None) line Hs) Hl).
Defined.

(** C9: [handleInput] on a terminal whose connection has not been opened
    throws [Error('Terminal not ready')]; nothing is written and the
    terminal is unchanged. *)
Theorem input_before_open_throws t data :
  _socket t = None ->
  handleInput data t = thrown (Error "Terminal not ready"%string) t [].
Proof.
  intros Hs. unfold handleInput. apply on_socket_closed. exact Hs.
Qed.

Lemma input_before_open_throws_witness :
  _socket fresh = None /\
  handleInput CR fresh = thrown (Error "Terminal not ready"%string) fresh [].
Proof.
  split; [reflexivity|].
  exact (input_before_open_throws fresh CR eq_refl).
Defined.

(** ** Reporting the size *)

Lemma fits_spec d :
  fits d = true <->
  (-32768 <= columns d <= 32767) /\ (-32768 <= rows d <= 32767).
Proof.
  unfold fits, Buffer.fitsInt16, Buffer.INT16_MIN, Buffer.INT16_MAX.
  rewrite !andb_true_iff, !Z.leb_le. tauto.
Qed.

Lemma setDimensions_eq t d :
  setDimensions d t = sendWindowSize (with_dimensions (Some d) t).
Proof. unfold setDimensions, set_dimensions. apply bind_modify. Qed.

Lemma setDimensions_after t d :
  after (setDimensions d t) = with_dimensions (Some d) t.
Proof. rewrite setDimensions_eq. apply sendWindowSize_after. Qed.

Lemma setDimensions_not_accepted t d :
  _serverNawsOk t = false ->
  setDimensions d t = returned (with_dimensions (Some d) t) [].
Proof.
  intros Hn. rewrite setDimensions_eq.
  apply sendWindowSize_not_accepted. exact Hn.
Qed.

Lemma setDimensions_accepted t d :
  _socket t <> None -> _serverNawsOk t = true -> fits d = true ->
  setDimensions d t =
  returned (with_dimensions (Some d) t) [WriteSub NAWS (naws_payload d)].
Proof.
  intros Hs Hn Hf. rewrite setDimensions_eq.
  rewrite (sendWindowSize_fits (with_dimensions (Some d) t) d Hn eq_refl Hf).
  apply (on_socket_open (with_dimensions (Some d) t)). exact Hs.
Qed.

(** Sizes reported while NAWS is not accepted only replace the stored size. *)
Lemma report_not_accepted ds : forall t,
  _serverNawsOk t = false ->
  exists stored, report ds t = with_dimensions stored t.
Proof.
  induction ds as [|d ds IH]; intros t Hn.
  - exists (_dimensions t). symmetry. apply with_dimensions_same.
  - change (report (d :: ds) t) with (report ds (after (setDimensions d t))).
    rewrite setDimensions_after.
    destruct (IH (with_dimensions (Some d) t) Hn) as [stored E].
    exists stored. rewrite E. reflexivity.
Qed.

(** The size reported last is the one that stays stored. *)
Lemma report_last ds d t :
  _serverNawsOk t = false ->
  report (ds ++ [d]) t = with_dimensions (Some d) t.
Proof.
  intros Hn. unfold report. rewrite fold_left_app. fold (report ds t).
  destruct (report_not_accepted ds t Hn) as [stored E]. rewrite E.
  cbn [fold_left]. rewrite setDimensions_after. reflexivity.
Qed.

(** C7: while the remote accepts NAWS, reporting a size a second time does
    exactly what reporting it the first time did: the same calls on the
    socket, the same completion, the same stored size.  For a size within
    range each of the two reports writes one NAWS subnegotiation with the
    four bytes of that size, so the two blocks are identical and the second
    is not suppressed. *)
Theorem same_size_reported_twice t d :
  _socket t <> None -> _serverNawsOk t = true ->
  (sent (setDimensions d (after (setDimensions d t))) = sent (setDimensions d t) /\
   completion (setDimensions d (after (setDimensions d t))) =
     completion (setDimensions d t) /\
   after (setDimensions d (after (setDimensions d t))) = after (setDimensions d t)) /\
  (fits d = true ->
   sent (setDimensions d t) = [WriteSub NAWS (naws_payload d)] /\
   sent (setDimensions d (after (setDimensions d t))) =
     [WriteSub NAWS (naws_payload d)]).
Proof.
  intros Hs Hn. split.
  - rewrite setDimensions_after, !setDimensions_eq.
    change (with_dimensions (Some d) (with_dimensions (Some d) t))
      with (with_dimensions (Some d) t).
    rewrite sendWindowSize_after. auto.
  - intros Hf. rewrite setDimensions_after.
    rewrite (setDimensions_accepted t d Hs Hn Hf).
    rewrite (setDimensions_accepted (with_dimensions (Some d) t) d Hs Hn Hf).
    split; reflexivity.
Qed.

Lemma same_size_reported_twice_witness :
  let t := after (handleDo NAWS (opened None)) in
  let d := {| columns := 132; rows := 43 |} in
  (_socket t <> None /\ _serverNawsOk t = true /\ fits d = true) /\
  sent (setDimensions d t) = [WriteSub NAWS [0; 132; 0; 43]] /\
  sent (setDimensions d (after (setDimensions d t))) = [WriteSub NAWS [0; 132; 0; 43]].
Proof.
  intros t d.
  assert (Hs : _socket t <> None) by (vm_compute; discriminate).
  assert (Hn : _serverNawsOk t = true) by reflexivity.
  assert (Hf : fits d = true) by reflexivity.
  split; [auto|].
  exact (proj2 (same_size_reported_twice t d Hs Hn) Hf).
Defined.

(** C8: a size reported while the remote has not accepted NAWS replaces the
    stored size and nothing is written.  When [DO NAWS] then arrives on the
    open connection after any number of such reports, a NAWS subnegotiation
    written in reply carries the size reported last, and it is written, after
    [WILL NAWS], whenever that size is within range. *)
Theorem size_stored_until_naws_accepted t d :
  _serverNawsOk t = false ->
  setDimensions d t = returned (with_dimensions (Some d) t) [] /\
  (forall ds,
   _dimensions (report (ds ++ [d]) t) = Some d /\
   (_socket t <> None ->
    (forall o b, In (WriteSub o b) (sent (handleDo NAWS (report (ds ++ [d]) t))) ->
                 o = NAWS /\ b = naws_payload d) /\
    (fits d = true ->
     sent (handleDo NAWS (report (ds ++ [d]) t)) =
       [WriteWill NAWS; WriteSub NAWS (naws_payload d)]))).
Proof.
  intros Hn. split; [apply setDimensions_not_accepted; exact Hn|].
  intros ds. rewrite (report_last ds d t Hn). split; [reflexivity|].
  intros Hs.
  rewrite (sent_handleDo_NAWS (with_dimensions (Some d) t) Hs).
  change (_serverNawsOk (with_dimensions (Some d) t)) with (_serverNawsOk t).
  rewrite Hn. split.
  - intros o b [E | Hin]; [discriminate E|].
    destruct (sendWindowSize_sent (with_serverNawsOk true (with_dimensions (Some d) t)))
      as [E | (d' & Hd' & _ & E)]; rewrite E in Hin.
    + contradiction.
    + destruct Hin as [E' | []]. injection Hd' as <-.
      injection E' as <- <-. auto.
  - intros Hf.
    rewrite (sendWindowSize_fits (with_serverNawsOk true (with_dimensions (Some d) t))
               d eq_refl eq_refl Hf).
    rewrite (on_socket_open (with_serverNawsOk true (with_dimensions (Some d) t)) _ Hs).
    reflexivity.
Qed.

Lemma size_stored_until_naws_accepted_witness :
  let d1 := {| columns := 80; rows := 24 |} in
  let d2 := {| columns := 132; rows := 43 |} in
  _serverNawsOk (opened None) = false /\
  setDimensions d2 (opened None) = returned (with_dimensions (Some d2) (opened None)) [] /\
  sent (handleDo NAWS (report ([d1] ++ [d2]) (opened None))) =
    [WriteWill NAWS; WriteSub NAWS [0; 132; 0; 43]].
Proof.
  intros d1 d2.
  assert (Hs : _socket (opened None) <> None) by (vm_compute; discriminate).
  destruct (size_stored_until_naws_accepted (opened None) d2 eq_refl) as [Hset Hrep].
  split; [reflexivity|]. split; [exact Hset|].
  exact (proj2 (proj2 (Hrep [d1]) Hs) eq_refl).
Defined.

(** C10: while the remote accepts NAWS, [setDimensions] with a column or row
    count outside [-32768, 32767] throws a [RangeError] naming the first
    value that is out of range; no call is made on the socket, and the size
    has already replaced the stored one when the error is thrown. *)
Theorem out_of_range_size_stored_then_rejected t d :
  _serverNawsOk t = true ->
  ~ (-32768 <= columns d <= 32767) \/ ~ (-32768 <= rows d <= 32767) ->
  setDimensions d t =
    thrown (RangeError (offending d)) (with_dimensions (Some d) t) [] /\
  _dimensions (after (setDimensions d t)) = Some d.
Proof.
  intros Hn Hr.
  assert (Hf : fits d = false).
  { destruct (fits d) eqn:Hf; [|reflexivity].
    apply fits_spec in Hf. tauto. }
  rewrite setDimensions_eq.
  rewrite (sendWindowSize_out_of_range (with_dimensions (Some d) t) d Hn eq_refl Hf).
  split; reflexivity.
Qed.

Lemma out_of_range_size_stored_then_rejected_witness :
  let t := after (handleDo NAWS (opened (Some {| columns := 80; rows := 24 |}))) in
  let d := {| columns := 80; rows := 40000 |} in
  _serverNawsOk t = true /\
  setDimensions d t = thrown (RangeError 40000) (with_dimensions (Some d) t) [] /\
  _dimensions (after (setDimensions d t)) = Some d.
Proof.
  intros t d. split; [reflexivity|].
  apply (out_of_range_size_stored_then_rejected t d eq_refl).
  right. simpl. lia.
Defined.

(** ** Beyond the negotiation replies: the life of a connection *)

Lemma on_socket_cases t c :
  (_socket t <> None /\ on_socket c t = returned t [c]) \/
  (_socket t = None /\
   on_socket c t = thrown (Error "Terminal not ready"%string) t []).
Proof.
  destruct (_socket t) eqn:Hs.
  - left. split; [discriminate|]. apply on_socket_open. congruence.
  - right. split; [reflexivity|]. apply on_socket_closed. exact Hs.
Qed.

Lemma on_socket_after t c : after (on_socket c t) = t.
Proof.
  destruct (on_socket_cases t c) as [[_ E] | [_ E]]; rewrite E; reflexivity.
Qed.

Lemma open_eq d t :
  open d t =
  returned (with_socket (Some {| remoteHost := host t; remotePort := port t |})
                        (with_dimensions d t))
           [WriteDo ECHO; WriteDo SUPPRESS_GO_AHEAD;
            WriteWill SUPPRESS_GO_AHEAD; WriteWill NAWS].
Proof.
  unfold open. rewrite bind_modify, !bind_gets, bind_modify.
  set (t' := with_socket _ _).
  assert (Hs : _socket t' <> None) by discriminate.
  rewrite (bind_returned _ _ _ _ _ (on_socket_open t' (WriteDo ECHO) Hs)).
  rewrite (bind_returned _ _ _ _ _
             (on_socket_open t' (WriteDo SUPPRESS_GO_AHEAD) Hs)).
  rewrite (bind_returned _ _ _ _ _
             (on_socket_open t' (WriteWill SUPPRESS_GO_AHEAD) Hs)).
  rewrite (on_socket_open t' (WriteWill NAWS) Hs).
  reflexivity.
Qed.




(** X3: [open] does not reset the NAWS flag.  On a terminal whose flag is
    set from an earlier connection, [DO NAWS] received on the new connection
    is answered by nothing, neither [WILL NAWS] nor a size, and the terminal
    is unchanged. *)
Theorem reopened_terminal_ignores_do_naws d t :
  _serverNawsOk t = true ->
  handleDo NAWS (after (open d t)) = returned (after (open d t)) [].
Proof.
  intros Hn. rewrite handleDo_NAWS. apply set_serverNawsOk_same.
  rewrite open_eq. exact Hn.
Qed.

Lemma reopened_terminal_ignores_do_naws_witness :
  let t := after (handleDo NAWS (opened None)) in
  _serverNawsOk t = true /\
  handleDo NAWS (after (open None t)) = returned (after (open None t)) [].
Proof.
  intros t. split; [reflexivity|].
  exact (reopened_terminal_ignores_do_naws None t eq_refl).
Defined.

(** X4: of the options that [open] offers, the remote's matching answer is
    confirmed for every [DO] offer (ECHO and SUPPRESS-GO-AHEAD: [WILL] is
    answered with [DO]), but among the [WILL] offers only NAWS is honoured:
    when the remote answers [DO SUPPRESS-GO-AHEAD] to the offer
    [WILL SUPPRESS-GO-AHEAD], the terminal answers [WONT]. *)
Theorem offers_and_their_answers d t o :
  let t' := after (open d t) in
  (In (WriteDo o) (sent (open d t)) ->
   handleWill o t' = returned t' [WriteDo o]) /\
  (In (WriteWill o) (sent (open d t)) -> o <> NAWS ->
   handleDo o t' = returned t' [WriteWont o]).
Proof.
  intros t'. subst t'. rewrite open_eq.
  set (t' := with_socket _ _).
  assert (Hs : _socket t' <> None) by discriminate.
  change (after (returned t' _)) with t'.
  change (sent (returned t' ?l)) with l.
  split.
  - intros [E | [E | [E | [E | []]]]]; try discriminate E;
      injection E as <-; rewrite handleWill_eq; apply on_socket_open; exact Hs.
  - intros [E | [E | [E | [E | []]]]] Ho; try discriminate E;
      injection E as <-; [|contradiction].
    rewrite handleDo_other by exact Ho. apply on_socket_open; exact Hs.
Qed.

Lemma offers_and_their_answers_witness :
  let t' := opened None in
  In (WriteWill SUPPRESS_GO_AHEAD) (sent (open None fresh)) /\
  SUPPRESS_GO_AHEAD <> NAWS /\
  handleDo SUPPRESS_GO_AHEAD t' = returned t' [WriteWont SUPPRESS_GO_AHEAD].
Proof.
  intros t'.
  assert (Hin : In (WriteWill SUPPRESS_GO_AHEAD) (sent (open None fresh)))
    by (vm_compute; auto).
  assert (Ho : SUPPRESS_GO_AHEAD <> NAWS) by (vm_compute; discriminate).
  split; [exact Hin|]. split; [exact Ho|].
  exact (proj2 (offers_and_their_answers None fresh SUPPRESS_GO_AHEAD) Hin Ho).
Defined.

(** X5: [close] ends the socket of an open terminal and changes no field: the
    socket stays in place, so input submitted after [close] is still handed
    to it rather than refused.  On a terminal that was never opened [close]
    throws [Error('Terminal not ready')]. *)
Theorem close_keeps_the_socket t data :
  (_socket t <> None ->
   close t = returned t [End_] /\
   handleInput data (after (close t)) = returned t [WriteData (translateInput data)]) /\
  (_socket t = None ->
   close t = thrown (Error "Terminal not ready"%string) t []).
Proof.
  split.
  - intros Hs. unfold close. rewrite (on_socket_open t End_ Hs).
    split; [reflexivity|]. unfold handleInput. apply on_socket_open. exact Hs.
  - intros Hs. apply on_socket_closed. exact Hs.
Qed.

Lemma close_keeps_the_socket_witness :
  (_socket (opened None) <> None /\ _socket fresh = None) /\
  handleInput CR (after (close (opened None))) =
    returned (opened None) [WriteData CRLF] /\
  close fresh = thrown (Error "Terminal not ready"%string) fresh [].
Proof.
  assert (Hs : _socket (opened None) <> None) by (vm_compute; discriminate).
  split; [split; [exact Hs | reflexivity]|]. split.
  - exact (proj2 (proj1 (close_keeps_the_socket (opened None) CR) Hs)).
  - exact (proj2 (close_keeps_the_socket fresh CR) eq_refl).
Defined.


(** ** What the listeners change, write and throw *)

Lemma with_serverNawsOk_same t :
  with_serverNawsOk (_serverNawsOk t) t = t.
Proof. destruct t; reflexivity. Qed.

Lemma set_serverNawsOk_after b t :
  after (set_serverNawsOk b t) = with_serverNawsOk b t.
Proof.
  destruct (Bool.bool_dec (_serverNawsOk t) b) as [E | E].
  - rewrite (set_serverNawsOk_same t b E). rewrite <- E.
    symmetry. apply with_serverNawsOk_same.
  - destruct (_socket t) eqn:Hs; destruct b; destruct (_serverNawsOk t) eqn:Hn;
      try congruence.
    + rewrite set_serverNawsOk_accept by congruence. reflexivity.
    + rewrite set_serverNawsOk_withdraw by congruence. reflexivity.
    + rewrite set_serverNawsOk_accept_closed by assumption. reflexivity.
    + rewrite set_serverNawsOk_withdraw_closed by assumption. reflexivity.
Qed.

Lemma handleSubnegotiation_cases o b t :
  handleSubnegotiation o b t = returned t [] \/
  exists payload, handleSubnegotiation o b t = on_socket (WriteSub o payload) t.
Proof.
  unfold handleSubnegotiation.
  destruct (Z.eqb_spec o TERMINAL_TYPE) as [-> | _].
  - destruct (first_is_SEND b); [right | left; reflexivity].
    eexists. reflexivity.
  - destruct (Z.eqb_spec o NEW_ENVIRON) as [-> | _]; [|left; reflexivity].
    destruct (first_is_SEND b); [right | left; reflexivity].
    eexists. reflexivity.
Qed.

Lemma receive_after ev t :
  after (receive ev t) =
  with_serverNawsOk (naws_flag_after ev (_serverNawsOk t)) t.
Proof.
  destruct ev as [o | o | o | o | o b]; simpl receive; simpl naws_flag_after.
  - destruct (Z.eqb_spec o NAWS) as [-> | Ho].
    + rewrite handleDo_NAWS. apply set_serverNawsOk_after.
    + rewrite handleDo_other, on_socket_after by exact Ho.
      symmetry. apply with_serverNawsOk_same.
  - destruct (Z.eqb_spec o NAWS) as [-> | Ho].
    + rewrite handleDont_NAWS. apply set_serverNawsOk_after.
    + rewrite handleDont_other, on_socket_after by exact Ho.
      symmetry. apply with_serverNawsOk_same.
  - rewrite handleWill_eq, on_socket_after.
    symmetry. apply with_serverNawsOk_same.
  - rewrite handleWont_eq, on_socket_after.
    symmetry. apply with_serverNawsOk_same.
  - rewrite with_serverNawsOk_same.
    destruct (handleSubnegotiation_cases o b t) as [E | [payload E]];
      rewrite E; [reflexivity | apply on_socket_after].
Qed.

(** X7: a listener changes nothing of the terminal but the NAWS flag: host,
    port, encoding, stored dimensions and socket stay, whether the listener
    returns or throws.  The flag is set by [DO NAWS], cleared by [DONT NAWS]
    and left alone by every other event. *)
Theorem listeners_change_the_naws_flag_only ev t :
  after (receive ev t) =
  with_serverNawsOk (naws_flag_after ev (_serverNawsOk t)) t /\
  _socket (after (receive ev t)) = _socket t /\
  _dimensions (after (receive ev t)) = _dimensions t.
Proof. rewrite receive_after. repeat split. Qed.

Lemma In_sent_on_socket t c x :
  In x (sent (on_socket c t)) -> x = c.
Proof.
  destruct (on_socket_cases t c) as [[_ E] | [_ E]]; rewrite E; simpl.
  - intros [<- | []]. reflexivity.
  - contradiction.
Qed.

Lemma In_sent_sendWindowSize t x :
  In x (sent (sendWindowSize t)) -> call_option x = Some NAWS.
Proof.
  destruct (sendWindowSize_sent t) as [E | (d & _ & _ & E)]; rewrite E; simpl.
  - contradiction.
  - intros [<- | []]. reflexivity.
Qed.

Lemma In_sent_set_serverNawsOk b t x :
  In x (sent (set_serverNawsOk b t)) -> call_option x = Some NAWS.
Proof.
  destruct (Bool.bool_dec (_serverNawsOk t) b) as [E | E].
  - rewrite (set_serverNawsOk_same t b E). contradiction.
  - destruct (_socket t) eqn:Hs; destruct b; destruct (_serverNawsOk t) eqn:Hn;
      try congruence.
    + rewrite set_serverNawsOk_accept by congruence.
      intros [<- | Hin]; [reflexivity|].
      apply In_sent_sendWindowSize in Hin. exact Hin.
    + rewrite set_serverNawsOk_withdraw by congruence.
      intros [<- | []]. reflexivity.
    + rewrite set_serverNawsOk_accept_closed by assumption. contradiction.
    + rewrite set_serverNawsOk_withdraw_closed by assumption. contradiction.
Qed.

(** X8: every call a listener makes on the socket names the option of the
    event it reacts to: a negotiation command or subnegotiation about
    another option is never written, nor is data written or the socket
    ended. *)
Theorem listeners_answer_about_the_same_option ev t c :
  In c (sent (receive ev t)) -> call_option c = Some (event_option ev).
Proof.
  destruct ev as [o | o | o | o | o b]; simpl receive; simpl event_option.
  - destruct (Z.eq_dec o NAWS) as [-> | Ho].
    + rewrite handleDo_NAWS. apply In_sent_set_serverNawsOk.
    + rewrite handleDo_other by exact Ho. intros Hin.
      apply In_sent_on_socket in Hin. subst c.
      destruct ((o =? TERMINAL_TYPE) || (o =? NEW_ENVIRON)); reflexivity.
  - destruct (Z.eq_dec o NAWS) as [-> | Ho].
    + rewrite handleDont_NAWS. apply In_sent_set_serverNawsOk.
    + rewrite handleDont_other by exact Ho. intros Hin.
      apply In_sent_on_socket in Hin. subst c. reflexivity.
  - rewrite handleWill_eq. intros Hin.
    apply In_sent_on_socket in Hin. subst c.
    destruct ((o =? ECHO) || (o =? SUPPRESS_GO_AHEAD)); reflexivity.
  - rewrite handleWont_eq. intros Hin.
    apply In_sent_on_socket in Hin. subst c.
    destruct (o =? ECHO); reflexivity.
  - destruct (handleSubnegotiation_cases o b t) as [E | [payload E]];
      rewrite E; intros Hin.
    + contradiction.
    + apply In_sent_on_socket in Hin. subst c. reflexivity.
Qed.

Lemma listeners_answer_about_the_same_option_witness :
  In (WriteSub NAWS [0; 80; 0; 24])
     (sent (receive (on_do NAWS) (opened (Some {| columns := 80; rows := 24 |})))) /\
  call_option (WriteSub NAWS [0; 80; 0; 24]) = Some NAWS.
Proof.
  assert (Hin : In (WriteSub NAWS [0; 80; 0; 24])
                  (sent (receive (on_do NAWS)
                           (opened (Some {| columns := 80; rows := 24 |})))))
    by (vm_compute; auto).
  split; [exact Hin|].
  exact (listeners_answer_about_the_same_option _ _ _ Hin).
Defined.

Lemma sendWindowSize_returns t :
  _socket t <> None -> size_encodable t ->
  completion (sendWindowSize t) = Returns tt.
Proof.
  intros Hs He.
  destruct (_serverNawsOk t) eqn:Hn.
  - destruct (_dimensions t) as [d|] eqn:Hd.
    + rewrite (sendWindowSize_fits t d Hn Hd (He d Hd)).
      rewrite on_socket_open by exact Hs. reflexivity.
    + rewrite sendWindowSize_no_size by exact Hd. reflexivity.
  - rewrite sendWindowSize_not_accepted by exact Hn. reflexivity.
Qed.

Lemma receive_returns ev t :
  _socket t <> None -> size_encodable t ->
  completion (receive ev t) = Returns tt.
Proof.
  intros Hs He.
  destruct ev as [o | o | o | o | o b]; simpl receive.
  - destruct (Z.eq_dec o NAWS) as [-> | Ho].
    + rewrite handleDo_NAWS. destruct (_serverNawsOk t) eqn:Hn.
      * rewrite set_serverNawsOk_same by exact Hn. reflexivity.
      * rewrite set_serverNawsOk_accept by assumption. cbn [completion].
        apply (sendWindowSize_returns (with_serverNawsOk true t));
          [exact Hs | exact He].
    + rewrite handleDo_other, on_socket_open by assumption. reflexivity.
  - destruct (Z.eq_dec o NAWS) as [-> | Ho].
    + rewrite handleDont_NAWS. destruct (_serverNawsOk t) eqn:Hn.
      * rewrite set_serverNawsOk_withdraw by assumption. reflexivity.
      * rewrite set_serverNawsOk_same by exact Hn. reflexivity.
    + rewrite handleDont_other, on_socket_open by assumption. reflexivity.
  - rewrite handleWill_eq, on_socket_open by assumption. reflexivity.
  - rewrite handleWont_eq, on_socket_open by assumption. reflexivity.
  - destruct (handleSubnegotiation_cases o b t) as [E | [payload E]];
      rewrite E; [reflexivity|].
    rewrite on_socket_open by assumption. reflexivity.
Qed.

(** X9: on an open connection whose stored size is absent or within range,
    no listener throws, whatever the event. *)
Theorem listeners_return_when_size_encodable ev t :
  _socket t <> None -> size_encodable t ->
  completion (receive ev t) = Returns tt.
Proof. apply receive_returns. Qed.

Lemma listeners_return_when_size_encodable_witness :
  let t := opened (Some {| columns := 80; rows := 24 |}) in
  (_socket t <> None /\ size_encodable t) /\
  completion (receive (on_do NAWS) t) = Returns tt.
Proof.
  intros t.
  assert (Hs : _socket t <> None) by (vm_compute; discriminate).
  assert (He : size_encodable t).
  { intros d Hd. injection Hd as <-. reflexivity. }
  split; [split; assumption|].
  exact (listeners_return_when_size_encodable (on_do NAWS) t Hs He).
Defined.

(** X10: when the stored size is out of range and NAWS has not been
    accepted, [DO NAWS] on an open connection writes [WILL NAWS], sets the
    NAWS flag and then throws the [RangeError] of the encoder: no size is
    written.  The flag stays set, so a [DO NAWS] that follows is answered by
    nothing. *)
Theorem do_naws_with_unencodable_size t d :
  _socket t <> None -> _serverNawsOk t = false ->
  _dimensions t = Some d -> fits d = false ->
  handleDo NAWS t =
    thrown (RangeError (offending d)) (with_serverNawsOk true t) [WriteWill NAWS] /\
  handleDo NAWS (after (handleDo NAWS t)) = returned (with_serverNawsOk true t) [].
Proof.
  intros Hs Hn Hd Hf.
  assert (E : handleDo NAWS t =
              thrown (RangeError (offending d)) (with_serverNawsOk true t)
                     [WriteWill NAWS]).
  { rewrite handleDo_NAWS, set_serverNawsOk_accept by assumption.
    rewrite (sendWindowSize_out_of_range (with_serverNawsOk true t) d eq_refl Hd Hf).
    reflexivity. }
  split; [exact E|]. rewrite E.
  change (after (thrown _ ?x _)) with x.
  rewrite handleDo_NAWS. apply set_serverNawsOk_same. reflexivity.
Qed.

Lemma do_naws_with_unencodable_size_witness :
  let d := {| columns := 70000; rows := 24 |} in
  let t := opened (Some d) in
  (_socket t <> None /\ _serverNawsOk t = false /\
   _dimensions t = Some d /\ fits d = false) /\
  handleDo NAWS t =
    thrown (RangeError 70000) (with_serverNawsOk true t) [WriteWill NAWS].
Proof.
  intros d t.
  assert (Hs : _socket t <> None) by (vm_compute; discriminate).
  split; [repeat split; exact Hs|].
  exact (proj1 (do_naws_with_unencodable_size t d Hs eq_refl eq_refl eq_refl)).
Defined.

(** ** Size updates follow the last NAWS request *)

(** X11: once [DONT NAWS] has been received, a reported size is stored and
    nothing is written, and [setDimensions] returns normally whatever the
    size, also for one that could not be encoded. *)
Theorem dont_naws_stops_size_updates t d :
  let t' := after (handleDont NAWS t) in
  setDimensions d t' = returned (with_dimensions (Some d) t') [].
Proof.
  intros t'. apply setDimensions_not_accepted.
  subst t'. rewrite handleDont_NAWS, set_serverNawsOk_after. reflexivity.
Qed.

(** X12: once [DO NAWS] has been received on an open connection, every size
    within range that is reported is stored and written as one NAWS block,
    also when the [DO NAWS] listener itself threw. *)
Theorem do_naws_starts_size_updates t d :
  _socket t <> None -> fits d = true ->
  let t' := after (handleDo NAWS t) in
  setDimensions d t' =
    returned (with_dimensions (Some d) t') [WriteSub NAWS (naws_payload d)].
Proof.
  intros Hs Hf t'. apply setDimensions_accepted.
  - subst t'. rewrite handleDo_NAWS, set_serverNawsOk_after. exact Hs.
  - subst t'. rewrite handleDo_NAWS, set_serverNawsOk_after. reflexivity.
  - exact Hf.
Qed.

Lemma do_naws_starts_size_updates_witness :
  let d := {| columns := 100; rows := 40 |} in
  let t' := after (handleDo NAWS (opened None)) in
  (_socket (opened None) <> None /\ fits d = true) /\
  setDimensions d t' =
    returned (with_dimensions (Some d) t') [WriteSub NAWS [0; 100; 0; 40]].
Proof.
  intros d t'.
  assert (Hs : _socket (opened None) <> None) by (vm_compute; discriminate).
  split; [split; [exact Hs | reflexivity]|].
  exact (do_naws_starts_size_updates (opened None) d Hs eq_refl).
Defined.

(** X13: on an open connection where NAWS is not accepted, [DO NAWS]
    followed by [DONT NAWS] brings the terminal back to exactly the state it
    was in, and the [DONT NAWS] is acknowledged with [WONT NAWS]. *)
Theorem do_then_dont_naws_restores t :
  _socket t <> None -> _serverNawsOk t = false ->
  handleDont NAWS (after (handleDo NAWS t)) = returned t [WriteWont NAWS].
Proof.
  intros Hs Hn.
  rewrite handleDo_NAWS, set_serverNawsOk_after, handleDont_NAWS.
  rewrite (set_serverNawsOk_withdraw (with_serverNawsOk true t) Hs eq_refl).
  replace (with_serverNawsOk false (with_serverNawsOk true t)) with t;
    [reflexivity|].
  destruct t; simpl in *; subst; reflexivity.
Qed.

Lemma do_then_dont_naws_restores_witness :
  let t := opened (Some {| columns := 80; rows := 24 |}) in
  (_socket t <> None /\ _serverNawsOk t = false) /\
  handleDont NAWS (after (handleDo NAWS t)) = returned t [WriteWont NAWS].
Proof.
  intros t.
  assert (Hs : _socket t <> None) by (vm_compute; discriminate).
  split; [split; [exact Hs | reflexivity]|].
  exact (do_then_dont_naws_restores t Hs eq_refl).
Defined.

(** ** The bytes of the NAWS block *)

Lemma fitsInt16_mod_injective a b :
  Buffer.fitsInt16 a = true -> Buffer.fitsInt16 b = true ->
  a mod 2 ^ 16 = b mod 2 ^ 16 -> a = b.
Proof.
  unfold Buffer.fitsInt16, Buffer.INT16_MIN, Buffer.INT16_MAX.
  rewrite !andb_true_iff, !Z.leb_le. change (2 ^ 16) with 65536.
  intros Ha Hb E.
  pose proof (Z.div_mod a 65536 ltac:(lia)).
  pose proof (Z.div_mod b 65536 ltac:(lia)).
  lia.
Qed.

(** X14: the NAWS block written for a size within range has four payload
    bytes, each between 0 and 255: columns first, then rows, each as the low
    sixteen bits of the number with the high byte first.  For counts that
    are not negative these are quotient and remainder by 256.  Two sizes
    within range that give the same block are the same size. *)
Theorem naws_block_is_big_endian t d :
  _socket t <> None -> _serverNawsOk t = true -> fits d = true ->
  (exists c1 c0 r1 r0,
     sent (setDimensions d t) = [WriteSub NAWS [c1; c0; r1; r0]] /\
     (0 <= c1 < 256 /\ 0 <= c0 < 256 /\ 0 <= r1 < 256 /\ 0 <= r0 < 256) /\
     256 * c1 + c0 = columns d mod 2 ^ 16 /\
     256 * r1 + r0 = rows d mod 2 ^ 16) /\
  (0 <= columns d -> 0 <= rows d ->
   sent (setDimensions d t) =
     [WriteSub NAWS [columns d / 256; columns d mod 256;
                     rows d / 256; rows d mod 256]]) /\
  (forall d', fits d' = true ->
   sent (setDimensions d' t) = sent (setDimensions d t) -> d' = d).
Proof.
  intros Hs Hn Hf.
  rewrite (setDimensions_accepted t d Hs Hn Hf).
  change (sent (returned _ ?l)) with l.
  split; [|split].
  - eexists _, _, _, _. split; [reflexivity|]. split.
    + unfold Buffer.ToUint8. repeat split;
        apply Z.mod_pos_bound; reflexivity.
    + split; apply writeInt16BE_big_endian.
  - intros Hc Hr. apply andb_prop in Hf as [Hfc Hfr].
    unfold Buffer.fitsInt16 in Hfc, Hfr.
    apply andb_prop in Hfc as [_ Hfc]. apply andb_prop in Hfr as [_ Hfr].
    apply Z.leb_le in Hfc, Hfr.
    destruct (writeInt16BE_nonneg (columns d) (conj Hc Hfc)) as [E1 E2].
    destruct (writeInt16BE_nonneg (rows d) (conj Hr Hfr)) as [E3 E4].
    unfold naws_payload. rewrite E1, E2, E3, E4. reflexivity.
  - intros d' Hf'. rewrite (setDimensions_accepted t d' Hs Hn Hf').
    change (sent (returned _ ?l)) with l.
    intros E. injection E as E1 E2 E3 E4.
    pose proof (writeInt16BE_big_endian (columns d)) as Bc.
    pose proof (writeInt16BE_big_endian (columns d')) as Bc'.
    pose proof (writeInt16BE_big_endian (rows d)) as Br.
    pose proof (writeInt16BE_big_endian (rows d')) as Br'.
    rewrite E1, E2 in Bc'. rewrite E3, E4 in Br'.
    apply andb_prop in Hf as [Hfc Hfr]. apply andb_prop in Hf' as [Hfc' Hfr'].
    assert (Ec : columns d' = columns d)
      by (apply fitsInt16_mod_injective; congruence).
    assert (Er : rows d' = rows d)
      by (apply fitsInt16_mod_injective; congruence).
    destruct d, d'; simpl in *; congruence.
Qed.

Lemma naws_block_is_big_endian_witness :
  let t := after (handleDo NAWS (opened None)) in
  let d := {| columns := 300; rows := 50 |} in
  (_socket t <> None /\ _serverNawsOk t = true /\ fits d = true) /\
  sent (setDimensions d t) = [WriteSub NAWS [1; 44; 0; 50]].
Proof.
  intros t d.
  assert (Hs : _socket t <> None) by (vm_compute; discriminate).
  split; [repeat split; exact Hs|].
  apply (proj1 (proj2 (naws_block_is_big_endian t d Hs eq_refl eq_refl)));
    simpl; lia.
Defined.

(** ** Input translation *)

(** X15: what [translateInput] returns is never a bare carriage return;
    translating twice is translating once; and exactly two inputs, the
    carriage return and the carriage return followed by a line feed, are
    sent as carriage return, line feed. *)
Theorem translateInput_never_bare_return data :
  translateInput data <> CR /\
  translateInput (translateInput data) = translateInput data /\
  (translateInput data = CRLF <-> data = CR \/ data = CRLF).
Proof.
  unfold translateInput. fold CR. fold CRLF.
  destruct (String.eqb_spec data CR) as [-> | Hd].
  - split; [discriminate|]. split; [reflexivity|]. tauto.
  - split; [exact Hd|]. split.
    + apply String.eqb_neq in Hd. rewrite Hd. reflexivity.
    + tauto.
Qed.

(** ** Runs of events *)

Lemma naws_answers_app cs cs' :
  naws_answers (cs ++ cs') = naws_answers cs ++ naws_answers cs'.
Proof.
  induction cs as [|c cs IH]; [reflexivity|].
  destruct c as [o | o | o | o | o b | s |]; simpl; try exact IH;
    destruct (o =? NAWS); simpl; rewrite IH; reflexivity.
Qed.

Lemma naws_answers_sendWindowSize t :
  naws_answers (sent (sendWindowSize t)) = [].
Proof.
  destruct (sendWindowSize_sent t) as [E | (d & _ & _ & E)];
    rewrite E; reflexivity.
Qed.

(** A listener answers about NAWS when, and only when, the flag changes. *)
Lemma naws_answers_receive ev t :
  _socket t <> None ->
  naws_answers (sent (receive ev t)) =
  if Bool.eqb (naws_flag_after ev (_serverNawsOk t)) (_serverNawsOk t)
  then [] else [naws_flag_after ev (_serverNawsOk t)].
Proof.
  intros Hs.
  destruct ev as [o | o | o | o | o b]; simpl receive; simpl naws_flag_after.
  - destruct (Z.eqb_spec o NAWS) as [-> | Ho].
    + rewrite sent_handleDo_NAWS by exact Hs.
      destruct (_serverNawsOk t); [reflexivity|].
      change (naws_answers (WriteWill NAWS :: ?l)) with (true :: naws_answers l).
      rewrite naws_answers_sendWindowSize. reflexivity.
    + rewrite Bool.eqb_reflx, handleDo_other, on_socket_open by assumption.
      apply Z.eqb_neq in Ho.
      destruct ((o =? TERMINAL_TYPE) || (o =? NEW_ENVIRON)); simpl;
        rewrite Ho; reflexivity.
  - destruct (Z.eqb_spec o NAWS) as [-> | Ho].
    + rewrite sent_handleDont_NAWS by exact Hs.
      destruct (_serverNawsOk t); reflexivity.
    + rewrite Bool.eqb_reflx, handleDont_other, on_socket_open by assumption.
      apply Z.eqb_neq in Ho. simpl. rewrite Ho. reflexivity.
  - rewrite Bool.eqb_reflx, handleWill_eq, on_socket_open by assumption.
    destruct ((o =? ECHO) || (o =? SUPPRESS_GO_AHEAD)); reflexivity.
  - rewrite Bool.eqb_reflx, handleWont_eq, on_socket_open by assumption.
    destruct (o =? ECHO); reflexivity.
  - rewrite Bool.eqb_reflx.
    destruct (handleSubnegotiation_cases o b t) as [E | [payload E]];
      rewrite E; [reflexivity|].
    rewrite on_socket_open by assumption. reflexivity.
Qed.

Lemma last_cons_default {A} (x : A) l d : last (x :: l) d = last l x.
Proof.
  revert x d. induction l as [|y l IH]; intros x d; [reflexivity|].
  change (last (x :: y :: l) d) with (last (y :: l) d).
  rewrite (IH y d). symmetry. apply IH.
Qed.

(** X16: in a run of events on an open connection whose stored size can be
    encoded, the answers [WILL NAWS] and [WONT NAWS] alternate: the first is
    [WILL NAWS] if NAWS was not accepted and [WONT NAWS] if it was, and no
    two in a row are the same.  At the end of the run NAWS is accepted if
    the last such answer was [WILL NAWS], and is as it was if there was
    none; nothing else of the terminal has changed. *)
Theorem naws_answers_alternate evs : forall t,
  _socket t <> None -> size_encodable t ->
  alternating (_serverNawsOk t) (naws_answers (snd (receive_all evs t))) = true /\
  fst (receive_all evs t) =
    with_serverNawsOk
      (last (naws_answers (snd (receive_all evs t))) (_serverNawsOk t)) t.
Proof.
  induction evs as [|ev evs IH]; intros t Hs He.
  - simpl. split; [reflexivity|]. symmetry. apply with_serverNawsOk_same.
  - cbn [receive_all].
    rewrite (receive_returns ev t Hs He), receive_after.
    set (f := _serverNawsOk t). set (f' := naws_flag_after ev f).
    destruct (IH (with_serverNawsOk f' t) Hs He) as [Halt Hfst].
    destruct (receive_all evs (with_serverNawsOk f' t)) as [t' cs] eqn:Erun.
    cbn [fst snd] in *.
    rewrite naws_answers_app, (naws_answers_receive ev t Hs).
    fold f. fold f'.
    change (_serverNawsOk (with_serverNawsOk f' t)) with f' in Halt, Hfst.
    destruct (Bool.eqb f' f) eqn:Ef.
    + apply Bool.eqb_prop in Ef. cbn [app]. rewrite <- Ef.
      split; [exact Halt|]. rewrite Hfst. reflexivity.
    + cbn [app alternating]. rewrite Ef, Halt.
      split; [reflexivity|]. rewrite last_cons_default, Hfst. reflexivity.
Qed.

Lemma naws_answers_alternate_witness :
  let t := opened (Some {| columns := 80; rows := 24 |}) in
  let evs := [on_dont NAWS; on_do NAWS; on_do NAWS; on_will ECHO;
              on_dont NAWS; on_do TERMINAL_TYPE; on_do NAWS] in
  (_socket t <> None /\ size_encodable t) /\
  naws_answers (snd (receive_all evs t)) = [true; false; true] /\
  alternating (_serverNawsOk t) (naws_answers (snd (receive_all evs t))) = true.
Proof.
  intros t evs.
  assert (Hs : _socket t <> None) by (vm_compute; discriminate).
  assert (He : size_encodable t).
  { intros d Hd. injection Hd as <-. reflexivity. }
  split; [split; assumption|]. split; [reflexivity|].
  exact (proj1 (naws_answers_alternate evs t Hs He)).
Defined.

(** ** When a size is written *)

(** X17: [setDimensions] always stores the size it is given and changes
    nothing else, whether it returns or throws.  It writes either nothing or
    the one NAWS block of that size, and it writes the block exactly when
    the connection is open, NAWS is accepted and the size is within range;
    it never writes a negotiation command. *)
Theorem setDimensions_stores_and_writes_at_most_one_block t d :
  after (setDimensions d t) = with_dimensions (Some d) t /\
  (sent (setDimensions d t) = [] \/
   sent (setDimensions d t) = [WriteSub NAWS (naws_payload d)]) /\
  (sent (setDimensions d t) = [WriteSub NAWS (naws_payload d)] <->
   _socket t <> None /\ _serverNawsOk t = true /\ fits d = true).
Proof.
  split; [apply setDimensions_after|].
  rewrite setDimensions_eq.
  set (t' := with_dimensions (Some d) t).
  destruct (_serverNawsOk t) eqn:Hn.
  - destruct (fits d) eqn:Hf.
    + rewrite (sendWindowSize_fits t' d Hn eq_refl Hf).
      destruct (_socket t) eqn:Hs.
      * rewrite (on_socket_open t') by (subst t'; simpl; congruence).
        split; [right; reflexivity|]. split; [|reflexivity].
        intros _. repeat split. discriminate.
      * rewrite (on_socket_closed t') by exact Hs.
        split; [left; reflexivity|]. split; [discriminate|].
        intros [H _]. congruence.
    + rewrite (sendWindowSize_out_of_range t' d Hn eq_refl Hf).
      split; [left; reflexivity|]. split; [discriminate|].
      intros (_ & _ & H). discriminate H.
  - rewrite (sendWindowSize_not_accepted t') by exact Hn.
    split; [left; reflexivity|]. split; [discriminate|].
    intros (_ & H & _). discriminate H.
Qed.
